(** * The streaming session of openai-react-native

    A shallow embedding of [OpenAI._stream] (src/index.ts) and of the two
    public entry points that call it, with the statements the
    specification makes about the streaming session.

    The session is event driven: [_stream] builds one request, creates an
    [EventSource] and registers three listeners.  The listeners are
    modelled as computations in a small state-and-exception monad whose
    state carries the caller's world (what the caller's callbacks can
    change), the status of the connection and the trace of everything
    observable: callback invocations, [close()] calls and exceptions that
    leave a listener. *)

From Stdlib Require Import Ascii String.
From stdpp Require Import base strings list gmap.

Open Scope string_scope.
Open Scope list_scope.

#[local] Set Warnings "-register-all".

(** ** ECMAScript values *)

Section Values.
Variable Number : Type.

(** The values that cross the session: JSON documents, [Error]
    instances, and whatever a callback throws.  IEEE doubles are kept
    abstract. *)
Inductive JSValue : Type :=
| JSUndefined
| JSNull
| JSBool (b : bool)
| JSNumber (n : Number)
| JSString (s : string)
| JSArray (elems : list JSValue)
| JSObject (props : list (string * JSValue))
| JSError (name message : string).
End Values.

Arguments JSUndefined {Number}.
Arguments JSNull {Number}.
Arguments JSBool {Number} b.
Arguments JSNumber {Number} n.
Arguments JSString {Number} s.
Arguments JSArray {Number} elems.
Arguments JSObject {Number} props.
Arguments JSError {Number} name message.

(** The primitives of the JavaScript host that [_stream] calls and whose
    results are fixed by the engine, not by this repository. *)
Class Host := {
  Number : Type;
  (** [Number::toString] *)
  Number_toString : Number -> string;
  (** [JSON.parse(text)]: the parsed value, or the message of the
      [SyntaxError] it throws. *)
  JSON_parse : string -> JSValue Number + string;
  (** [JSON.stringify(value)] for an object. *)
  JSON_stringify : JSValue Number -> string;
  (** The message of the [TypeError] raised by reading a property of
      [null] or [undefined]. *)
  nullish_message : JSValue Number -> string
}.

(** Own enumerable properties, in property order. *)
Fixpoint get_property {V : Type} (k : string) (props : list (string * V)) : option V :=
  match props with
  | [] => None
  | (k', v) :: rest => if decide (k' = k) then Some v else get_property k rest
  end.

(** [CreateDataProperty]: an existing key keeps its place and takes the new
    value, a new key goes last. *)
Fixpoint set_property {V : Type} (k : string) (v : V) (props : list (string * V))
  : list (string * V) :=
  match props with
  | [] => [(k, v)]
  | (k', v') :: rest =>
      if decide (k' = k) then (k, v) :: rest else (k', v') :: set_property k v rest
  end.

Fixpoint remove_property {V : Type} (k : string) (props : list (string * V))
  : list (string * V) :=
  match props with
  | [] => []
  | (k', v) :: rest =>
      if decide (k' = k) then remove_property k rest else (k', v) :: remove_property k rest
  end.

Fixpoint join (sep : string) (parts : list string) : string :=
  match parts with
  | [] => EmptyString
  | [p] => p
  | p :: rest => p +:+ sep +:+ join sep rest
  end.

Section Stream.
Context `{host : Host}.

#[local] Abbreviation Value := (JSValue Number).

(** ** Template literals and property reads *)

(** [ToString], as a template literal applies it to a substitution. *)
Fixpoint ToString (v : Value) : string :=
  match v with
  | JSUndefined => "undefined"
  | JSNull => "null"
  | JSBool true => "true"
  | JSBool false => "false"
  | JSNumber n => Number_toString n
  | JSString s => s
  | JSArray elems =>
      join "," (List.map (fun e => match e with
                                   | JSUndefined | JSNull => EmptyString
                                   | _ => ToString e
                                   end) elems)
  | JSObject _ => "[object Object]"
  | JSError name message =>
      if decide (name = EmptyString) then message
      else if decide (message = EmptyString) then name
      else name +:+ ": " +:+ message
  end.

(** Completion of an evaluation: a value, or a thrown exception. *)
Inductive Completion (A : Type) : Type :=
| Normal (a : A)
| Throw (e : Value).
Arguments Normal {A} a.
Arguments Throw {A} e.

(** [error.message] *)
Definition get_message (error : Value) : Completion Value :=
  match error with
  | JSUndefined | JSNull => Throw (JSError "TypeError" (nullish_message error))
  | JSError _ message => Normal (JSString message)
  | JSObject props => Normal (default JSUndefined (get_property "message" props))
  | _ => Normal JSUndefined
  end.

(** [new Error(message)] *)
Definition new_Error (message : string) : Value := JSError "Error" message.

(** ** The caller's callbacks *)

(** The caller's world: whatever the caller's callbacks read and write. *)
Variable W : Type.

(** A callback runs in the caller's world and returns or throws. *)
Definition Callback (A : Type) : Type := A -> W -> Completion unit * W.

Record onEvents : Type := {
  onError : option (Callback Value);
  onOpen : option (Callback unit);
  onDone : option (Callback unit)
}.

(** ** Observable behaviour *)

Inductive Action : Type :=
| CallOnData (data : Value)
| CallOnError (error : Value)
| CallOnDone
| CallOnOpen
| CloseConnection
| Uncaught (e : Value).

Record State : Type := {
  world : W;
  closed : bool;
  trace : list Action
}.

Definition initial (w : W) : State := {| world := w; closed := false; trace := [] |}.

(** ** The listener monad *)

Definition Handler (A : Type) : Type := State -> Completion A * State.

Definition ret {A} (a : A) : Handler A := fun st => (Normal a, st).

Definition bind {A B} (m : Handler A) (k : A -> Handler B) : Handler B :=
  fun st =>
    match m st with
    | (Normal a, st') => k a st'
    | (Throw e, st') => (Throw e, st')
    end.

Definition lift {A} (c : Completion A) : Handler A := fun st => (c, st).

(** [try { body } catch (error) { handler }] *)
Definition try_catch {A} (body : Handler A) (handler : Value -> Handler A) : Handler A :=
  fun st =>
    match body st with
    | (Normal a, st') => (Normal a, st')
    | (Throw e, st') => handler e st'
    end.

Definition record (a : Action) (st : State) : State :=
  {| world := world st; closed := closed st; trace := trace st ++ [a] |}.

(** A call of a caller's function: the call is observed, then the
    function runs in the caller's world. *)
Definition invoke {A} (a : Action) (f : Callback A) (arg : A) : Handler unit :=
  fun st =>
    let '(c, w) := f arg (world st) in
    (c, {| world := w; closed := closed st; trace := trace st ++ [a] |}).

(** [eventSource.close()] *)
Definition close : Handler unit :=
  fun st => (Normal tt, {| world := world st; closed := true;
                           trace := trace st ++ [CloseConnection] |}).

Declare Scope handler_scope.
Delimit Scope handler_scope with handler.
Bind Scope handler_scope with Handler.
Notation "x <- m ;; k" := (bind m (fun x => k))
  (at level 100, m at next level, k at level 200, right associativity)
  : handler_scope.
Notation "m ;; k" := (bind m (fun _ => k))
  (at level 100, k at level 200, right associativity) : handler_scope.
Open Scope handler_scope.

(** [f?.(arg)]: when [f] is absent nothing is called and the argument is
    not evaluated. *)
Definition optional_call {A} (f : option (Callback A)) (act : A -> Action)
    (arg : Handler A) : Handler unit :=
  match f with
  | None => ret tt
  | Some f => a <- arg ;; invoke (act a) f a
  end.

(** [JSON.parse(text)] as an evaluation that may throw. *)
Definition parse (text : string) : Completion Value :=
  match JSON_parse text with
  | inl v => Normal v
  | inr message => Throw (JSError "SyntaxError" message)
  end.

(** ** The transport's events *)

(** The event of type ['message']: [data] is [string | null]. *)
Record MessageEvent : Type := { data : option string }.

Inductive TransportEvent : Type :=
| EvOpen
| EvMessage (event : MessageEvent)
| EvError (error : Value).

(** ** The three listeners of [_stream] *)

Section Listeners.
Variable onData : Callback Value.
Variable callbacks : onEvents.

(** [onDone?.(); eventSource.close();] *)
Definition stream_ends : Handler unit :=
  optional_call (onDone callbacks) (fun _ => CallOnDone) (ret tt) ;;
  close.

(** [eventSource.addEventListener('message', (event) => { ... })] *)
Definition message_listener (event : MessageEvent) : Handler unit :=
  match data event with
  | Some text =>
      if negb (String.eqb text EmptyString) && negb (String.eqb text "[DONE]") then
        try_catch
          (data <- lift (parse text) ;;
           invoke (CallOnData data) onData data)
          (fun error =>
             optional_call (onError callbacks) CallOnError
               (message <- lift (get_message error) ;;
                ret (new_Error ("JSON Parse on " +:+ text +:+ " with error "
                                +:+ ToString message))) ;;
             close)
      else stream_ends
  | None => stream_ends
  end.

(** [eventSource.addEventListener('error', (error) => { ... })] *)
Definition error_listener (error : Value) : Handler unit :=
  optional_call (onError callbacks) CallOnError (ret error) ;;
  close.

(** [eventSource.addEventListener('open', () => { ... })] *)
Definition open_listener : Handler unit :=
  optional_call (onOpen callbacks) (fun _ => CallOnOpen) (ret tt).

(** The listener the [EventSource] runs for an event. *)
Definition listener (ev : TransportEvent) : Handler unit :=
  match ev with
  | EvOpen => open_listener
  | EvMessage event => message_listener event
  | EvError error => error_listener error
  end.

(** The transport dispatches one event: the listener runs; an
    exception that leaves the listener reaches the transport's own
    scheduling context. *)
Definition dispatch (ev : TransportEvent) (st : State) : State :=
  match listener ev st with
  | (Normal _, st') => st'
  | (Throw e, st') => record (Uncaught e) st'
  end.

(** The events the transport dispatches, in order. *)
Fixpoint run (events : list TransportEvent) (st : State) : State :=
  match events with
  | [] => st
  | ev :: rest => run rest (dispatch ev st)
  end.

(** The transport dispatches no event once [close()] has been called. *)
Fixpoint quiet_after_close (events : list TransportEvent) (st : State) : bool :=
  match events with
  | [] => true
  | ev :: rest => negb (closed st) && quiet_after_close rest (dispatch ev st)
  end.
End Listeners.

(** ** The request *)

Record OpenAI : Type := { apiKey : string; baseURL : string }.

(** What [new EventSource(url, options)] is given. *)
Record EventSourceOptions : Type := {
  headers : list (string * string);
  method : string;
  body : string
}.

Record EventSource : Type := {
  url : string;
  options : EventSourceOptions;
  listeners : TransportEvent -> Handler unit
}.

(** Objects the caller shares with the session live in a heap: a
    location holds the object's own properties. *)
Definition loc : Type := positive.
#[local] Abbreviation Heap := (gmap loc (list (string * Value))).

(** The properties an object spread [...params] copies. *)
Definition own_properties (h : Heap) (l : loc) : list (string * Value) :=
  default [] (h !! l).

(** [private _stream(url, params, onData, callbacks)] *)
Definition _stream (this : OpenAI) (url : string) (params : loc)
    (onData : Callback Value) (callbacks : onEvents) (h : Heap)
  : EventSource * Heap :=
  let requestBody := fresh (dom h) in
  let h := <[requestBody :=
               set_property "stream" (JSBool true) (own_properties h params)]> h in
  let eventSource :=
    {| url := url;
       options :=
         {| headers := [("Authorization", "Bearer " +:+ apiKey this);
                        ("Content-Type", "application/json")];
            method := "POST";
            body := JSON_stringify (JSObject (own_properties h requestBody)) |};
       listeners := listener onData callbacks |} in
  (eventSource, h).

(** [chat.completions.stream(params, onData, callbacks)] *)
Definition chat_completions_stream (this : OpenAI) (params : loc)
    (onData : Callback Value) (callbacks : onEvents) (h : Heap) :=
  _stream this (baseURL this +:+ "/chat/completions") params onData callbacks h.

(** [beta.threads.runs.stream(threadId, body, onData, callbacks)] *)
Definition beta_threads_runs_stream (this : OpenAI) (threadId : string) (body : loc)
    (onData : Callback Value) (callbacks : onEvents) (h : Heap) :=
  _stream this (baseURL this +:+ "/threads/" +:+ threadId +:+ "/runs")
    body onData callbacks h.

(** ** What the statements about a session speak of *)

(** A frame carrying the payload [text]. *)
Definition frame (text : string) : TransportEvent := EvMessage {| data := Some text |}.

(** The callback, when supplied, returns normally whenever it is called. *)
Definition returns {A} (f : option (Callback A)) : Prop :=
  match f with
  | Some f => forall a w, fst (f a w) = Normal tt
  | None => True
  end.

(** What an optional callback contributes to the trace. *)
Definition when_supplied {A} (f : option (Callback A)) (a : Action) : list Action :=
  match f with
  | Some _ => [a]
  | None => []
  end.

Definition is_terminal (a : Action) : bool :=
  match a with
  | CallOnDone | CallOnError _ => true
  | _ => false
  end.

Definition is_callback (a : Action) : bool :=
  match a with
  | CallOnData _ | CallOnError _ | CallOnDone | CallOnOpen => true
  | CloseConnection | Uncaught _ => false
  end.

(** The callback invocations of a trace, in order. *)
Definition invocations (t : list Action) : list Action := List.filter is_callback t.

(** The arguments of the [onData] invocations of a trace, in order. *)
Fixpoint onData_calls (t : list Action) : list Value :=
  match t with
  | [] => []
  | CallOnData v :: rest => v :: onData_calls rest
  | _ :: rest => onData_calls rest
  end.

(** No callback is invoked after the first terminal callback. *)
Fixpoint terminal_once (t : list Action) : bool :=
  match t with
  | [] => true
  | a :: rest =>
      if is_terminal a then forallb (fun b => negb (is_callback b)) rest
      else terminal_once rest
  end.


(** Space, tab, line feed and carriage return only. *)
Fixpoint whitespace_only (s : string) : bool :=
  match s with
  | EmptyString => true
  | String c rest =>
      (Ascii.eqb c " "%char || Ascii.eqb c "009"%char
       || Ascii.eqb c "010"%char || Ascii.eqb c "013"%char)
      && whitespace_only rest
  end.
End Stream.

Arguments Normal {host A} a.
Arguments Throw {host A} e.
Arguments initial {host W} w.
Arguments world {host W} s.
Arguments closed {host W} s.
Arguments trace {host W} s.
Arguments onError {host W} o.
Arguments onOpen {host W} o.
Arguments onDone {host W} o.
Arguments ret {host W A} a st.
Arguments bind {host W A B} m k st.
Arguments lift {host W A} c st.
Arguments try_catch {host W A} body handler st.
Arguments record {host W} a st.
Arguments invoke {host W A} a f arg st.
Arguments close {host W} st.
Arguments optional_call {host W A} f act arg.
Arguments stream_ends {host W} callbacks.
Arguments message_listener {host W} onData callbacks event.
Arguments error_listener {host W} callbacks error.
Arguments open_listener {host W} callbacks.
Arguments listener {host W} onData callbacks ev.
Arguments dispatch {host W} onData callbacks ev st.
Arguments run {host W} onData callbacks events st.
Arguments quiet_after_close {host W} onData callbacks events st.
Arguments url {host W} e.
Arguments options {host W} e.
Arguments listeners {host W} e.
Arguments _stream {host W} this url params onData callbacks h.
Arguments chat_completions_stream {host W} this params onData callbacks h.
Arguments beta_threads_runs_stream {host W} this threadId body onData callbacks h.
Arguments returns {host W A} f.
Arguments when_supplied {host W A} f a.

(** ** A reference host

    An executable host: [JSON.parse] after the JSON grammar (ECMA-404) and
    [JSON.stringify] for data.  A number is kept as its literal. *)
Module Reference.
#[local] Abbreviation Value := (JSValue string).

Definition dquote : ascii := "034"%char.
Definition backslash : ascii := "092"%char.

(** JSON whitespace: space, tab, line feed, carriage return. *)
Definition is_ws (c : ascii) : bool :=
  Ascii.eqb c " "%char || Ascii.eqb c "009"%char
  || Ascii.eqb c "010"%char || Ascii.eqb c "013"%char.

Definition is_digit (c : ascii) : bool :=
  (48 <=? nat_of_ascii c)%nat && (nat_of_ascii c <=? 57)%nat.

Fixpoint skip_ws (s : list ascii) : list ascii :=
  match s with
  | c :: rest => if is_ws c then skip_ws rest else s
  | [] => []
  end.

Fixpoint span (p : ascii -> bool) (s : list ascii) : list ascii * list ascii :=
  match s with
  | c :: rest => if p c then let '(a, b) := span p rest in (c :: a, b) else ([], s)
  | [] => ([], [])
  end.

Fixpoint strip_prefix (p s : list ascii) : option (list ascii) :=
  match p, s with
  | [], _ => Some s
  | a :: p', b :: s' => if Ascii.eqb a b then strip_prefix p' s' else None
  | _ :: _, [] => None
  end.

(** number = [ - ] int [ . digits ] [ (e|E) [ + | - ] digits ] *)
Definition parse_number (s : list ascii) : option (string * list ascii) :=
  let '(sign, s) := match s with
                    | "-"%char :: r => (["-"%char], r)
                    | _ => ([], s)
                    end in
  let '(int, s) := span is_digit s in
  match int with
  | [] => None
  | "0"%char :: _ :: _ => None
  | _ =>
      let frac := match s with
                  | "."%char :: r =>
                      let '(ds, r') := span is_digit r in
                      match ds with [] => None | _ => Some ("."%char :: ds, r') end
                  | _ => Some ([], s)
                  end in
      match frac with
      | None => None
      | Some (fr, s) =>
          let exp := match s with
                     | e :: r =>
                         if Ascii.eqb e "e"%char || Ascii.eqb e "E"%char then
                           let '(sg, r) := match r with
                                           | c :: r' =>
                                               if Ascii.eqb c "+"%char || Ascii.eqb c "-"%char
                                               then ([c], r') else ([], r)
                                           | [] => ([], r)
                                           end in
                           let '(ds, r') := span is_digit r in
                           match ds with [] => None | _ => Some (e :: sg ++ ds, r') end
                         else Some ([], s)
                     | [] => Some ([], s)
                     end in
          match exp with
          | None => None
          | Some (ex, s) => Some (string_of_list_ascii (sign ++ int ++ fr ++ ex), s)
          end
      end
  end.

Definition hex_value (c : ascii) : option nat :=
  let n := nat_of_ascii c in
  if (48 <=? n)%nat && (n <=? 57)%nat then Some (n - 48)
  else if (65 <=? n)%nat && (n <=? 70)%nat then Some (n - 55)
  else if (97 <=? n)%nat && (n <=? 102)%nat then Some (n - 87)
  else None.

(** A code unit written [\uXXXX], as UTF-8 bytes. *)
Definition utf8 (n : nat) : list ascii :=
  if (n <? 128)%nat then [ascii_of_nat n]
  else if (n <? 2048)%nat then
    [ascii_of_nat (192 + n / 64); ascii_of_nat (128 + n mod 64)]
  else [ascii_of_nat (224 + n / 4096); ascii_of_nat (128 + (n / 64) mod 64);
        ascii_of_nat (128 + n mod 64)].

Fixpoint parse_chars (s : list ascii) (acc : list ascii) : option (string * list ascii) :=
  match s with
  | [] => None
  | c :: rest =>
      if Ascii.eqb c dquote then Some (string_of_list_ascii (rev acc), rest)
      else if Ascii.eqb c backslash then
        match rest with
        | e :: rest' =>
            if Ascii.eqb e "u"%char then
              match rest' with
              | a :: b :: c' :: d :: rest'' =>
                  match hex_value a, hex_value b, hex_value c', hex_value d with
                  | Some a, Some b, Some c', Some d =>
                      parse_chars rest''
                        (rev (utf8 (4096 * a + 256 * b + 16 * c' + d)) ++ acc)
                  | _, _, _, _ => None
                  end
              | _ => None
              end
            else
              let simple x := parse_chars rest' (x :: acc) in
              if Ascii.eqb e dquote then simple dquote
              else if Ascii.eqb e backslash then simple backslash
              else if Ascii.eqb e "/"%char then simple "/"%char
              else if Ascii.eqb e "b"%char then simple "008"%char
              else if Ascii.eqb e "f"%char then simple "012"%char
              else if Ascii.eqb e "n"%char then simple "010"%char
              else if Ascii.eqb e "r"%char then simple "013"%char
              else if Ascii.eqb e "t"%char then simple "009"%char
              else None
        | [] => None
        end
      else if (nat_of_ascii c <? 32)%nat then None
      else parse_chars rest (c :: acc)
  end.

(** value, then the elements of an array and the members of an object
    after their first. Every call consumes fuel; [parse_text] gives
    enough for the whole text. *)
Fixpoint parse_value (fuel : nat) (s : list ascii) : option (Value * list ascii) :=
  match fuel with
  | O => None
  | S fuel =>
      match skip_ws s with
      | [] => None
      | c :: rest =>
          if Ascii.eqb c "{"%char then
            match skip_ws rest with
            | "}"%char :: rest' => Some (JSObject [], rest')
            | _ =>
                match parse_members fuel rest with
                | Some (props, rest') => Some (JSObject props, rest')
                | None => None
                end
            end
          else if Ascii.eqb c "["%char then
            match skip_ws rest with
            | "]"%char :: rest' => Some (JSArray [], rest')
            | _ =>
                match parse_elements fuel rest with
                | Some (elems, rest') => Some (JSArray elems, rest')
                | None => None
                end
            end
          else if Ascii.eqb c dquote then
            match parse_chars rest [] with
            | Some (str, rest') => Some (JSString str, rest')
            | None => None
            end
          else if Ascii.eqb c "t"%char then
            match strip_prefix (list_ascii_of_string "rue") rest with
            | Some rest' => Some (JSBool true, rest')
            | None => None
            end
          else if Ascii.eqb c "f"%char then
            match strip_prefix (list_ascii_of_string "alse") rest with
            | Some rest' => Some (JSBool false, rest')
            | None => None
            end
          else if Ascii.eqb c "n"%char then
            match strip_prefix (list_ascii_of_string "ull") rest with
            | Some rest' => Some (JSNull, rest')
            | None => None
            end
          else
            match parse_number (c :: rest) with
            | Some (n, rest') => Some (JSNumber n, rest')
            | None => None
            end
      end
  end
with parse_elements (fuel : nat) (s : list ascii) : option (list Value * list ascii) :=
  match fuel with
  | O => None
  | S fuel =>
      match parse_value fuel s with
      | Some (v, rest) =>
          match skip_ws rest with
          | ","%char :: rest' =>
              match parse_elements fuel rest' with
              | Some (vs, rest'') => Some (v :: vs, rest'')
              | None => None
              end
          | "]"%char :: rest' => Some ([v], rest')
          | _ => None
          end
      | None => None
      end
  end
with parse_members (fuel : nat) (s : list ascii)
  : option (list (string * Value) * list ascii) :=
  match fuel with
  | O => None
  | S fuel =>
      match skip_ws s with
      | q :: rest =>
          if Ascii.eqb q dquote then
            match parse_chars rest [] with
            | Some (k, rest') =>
                match skip_ws rest' with
                | ":"%char :: rest'' =>
                    match parse_value fuel rest'' with
                    | Some (v, rest3) =>
                        match skip_ws rest3 with
                        | ","%char :: rest4 =>
                            match parse_members fuel rest4 with
                            | Some (props, rest5) =>
                                Some ((k, default v (get_property k props))
                                        :: remove_property k props, rest5)
                            | None => None
                            end
                        | "}"%char :: rest4 => Some ([(k, v)], rest4)
                        | _ => None
                        end
                    | None => None
                    end
                | _ => None
                end
            | None => None
            end
          else None
      | [] => None
      end
  end.

(** [JSON.parse]: one value between whitespace, and nothing else. *)
Definition parse_text (text : string) : Value + string :=
  let s := list_ascii_of_string text in
  match skip_ws s with
  | [] => inr "Unexpected end of JSON input"
  | _ =>
      match parse_value (2 * length s + 2) s with
      | Some (v, rest) =>
          match skip_ws rest with
          | [] => inl v
          | _ => inr "Unexpected non-whitespace character after JSON"
          end
      | None => inr "Unexpected token in JSON"
      end
  end.

Definition hex_digit (n : nat) : ascii :=
  if (n <? 10)%nat then ascii_of_nat (48 + n) else ascii_of_nat (87 + n).

(** [QuoteJSONString] *)
Fixpoint quote_chars (s : list ascii) : list ascii :=
  match s with
  | [] => []
  | c :: rest =>
      (if Ascii.eqb c dquote then [backslash; dquote]
       else if Ascii.eqb c backslash then [backslash; backslash]
       else if Ascii.eqb c "008"%char then [backslash; "b"%char]
       else if Ascii.eqb c "012"%char then [backslash; "f"%char]
       else if Ascii.eqb c "010"%char then [backslash; "n"%char]
       else if Ascii.eqb c "013"%char then [backslash; "r"%char]
       else if Ascii.eqb c "009"%char then [backslash; "t"%char]
       else if (nat_of_ascii c <? 32)%nat then
         [backslash; "u"%char; "0"%char; "0"%char;
          hex_digit (nat_of_ascii c / 16); hex_digit (nat_of_ascii c mod 16)]
       else [c]) ++ quote_chars rest
  end.

Definition quote (s : string) : string :=
  string_of_list_ascii (dquote :: quote_chars (list_ascii_of_string s) ++ [dquote]).

(** [SerializeJSONProperty]: [None] stands for [undefined]. *)
Fixpoint stringify (v : Value) : option string :=
  match v with
  | JSUndefined => None
  | JSNull => Some "null"
  | JSBool b => Some (if b then "true" else "false")
  | JSNumber n => Some n
  | JSString s => Some (quote s)
  | JSArray elems =>
      Some ("[" +:+ join "," (List.map (fun e => default "null" (stringify e)) elems)
            +:+ "]")
  | JSObject props =>
      Some ("{" +:+
            join "," ((fix members (ps : list (string * Value)) : list string :=
                         match ps with
                         | [] => []
                         | (k, v) :: rest =>
                             match stringify v with
                             | Some t => (quote k +:+ ":" +:+ t) :: members rest
                             | None => members rest
                             end
                         end) props)
            +:+ "}")
  | JSError _ _ => Some "{}"
  end.

#[export] Instance reference_host : Host := {|
  Number := string;
  Number_toString := fun n => n;
  JSON_parse := parse_text;
  JSON_stringify := fun v => default "undefined" (stringify v);
  nullish_message := fun v =>
    "Cannot read properties of " +:+
    match v with JSNull => "null" | _ => "undefined" end +:+
    " (reading 'message')"
|}.
End Reference.

(** ** Concrete sessions

    The frames and callbacks of the specification's end-to-end scenarios,
    on the reference host.  The caller's world counts the callbacks that
    have returned. *)
Module Scenario.
Import Reference.

Definition counting {A} : Callback nat A := fun _ n => (Normal tt, S n).

Definition throwing {A} (e : JSValue string) : Callback nat A := fun _ n => (Throw e, n).

Definition callbacks : onEvents nat :=
  {| onError := Some counting; onOpen := Some counting; onDone := Some counting |}.

Definition q : string := String dquote EmptyString.

(** The payloads [{"id":1}] and [{"id":2}], and a malformed one. *)
Definition id_1 : string := "{" +:+ q +:+ "id" +:+ q +:+ ":1}".
Definition id_2 : string := "{" +:+ q +:+ "id" +:+ q +:+ ":2}".
Definition bad_json : string := "{bad json".

Definition connection_failure : JSValue string :=
  JSObject [("type", JSString "error"); ("message", JSString "Network request failed")].

Definition client : OpenAI :=
  {| apiKey := "sk-test"; baseURL := "https://api.openai.com/v1" |}.

(** The caller's parameters, at location 1 of the heap. *)
Definition params : loc := 1%positive.

Definition model_only : list (string * JSValue string) :=
  [("model", JSString "gpt-4o"); ("stream", JSBool false)].

Definition heap : gmap loc (list (string * JSValue string)) :=
  {[ params := model_only ]}.
End Scenario.

(** ** What a dispatched event delivers *)

Section Delivery.
Context `{host : Host}.

(** The value a dispatched event hands to [onData]: the parsed payload of
    a message whose data is a non-empty string other than the sentinel
    that [JSON.parse] accepts, and nothing for any other event. *)
Definition deliverable (ev : TransportEvent) : list (JSValue Number) :=
  match ev with
  | EvMessage event =>
      match data event with
      | Some text =>
          if negb (String.eqb text EmptyString) && negb (String.eqb text "[DONE]") then
            match JSON_parse text with
            | inl v => [v]
            | inr _ => []
            end
          else []
      | None => []
      end
  | EvOpen | EvError _ => []
  end.

(** The events after which the listener calls [close()]: a transport
    error and a message that delivers nothing. *)
Definition closes (ev : TransportEvent) : bool :=
  match ev with
  | EvOpen => false
  | EvError _ => true
  | EvMessage _ => match deliverable ev with [] => true | _ :: _ => false end
  end.

Context {W : Type}.

(** The callbacks an event invokes when [onData] returns normally. *)
Definition expected_callbacks (callbacks : onEvents W) (ev : TransportEvent)
  : list Action :=
  match ev with
  | EvOpen => when_supplied (onOpen callbacks) CallOnOpen
  | EvError error => when_supplied (onError callbacks) (CallOnError error)
  | EvMessage event =>
      match data event with
      | Some text =>
          if negb (String.eqb text EmptyString) && negb (String.eqb text "[DONE]") then
            match JSON_parse text with
            | inl v => [CallOnData v]
            | inr message =>
                when_supplied (onError callbacks)
                  (CallOnError (new_Error ("JSON Parse on " +:+ text +:+ " with error "
                                           +:+ message)))
            end
          else when_supplied (onDone callbacks) CallOnDone
      | None => when_supplied (onDone callbacks) CallOnDone
      end
  end.
End Delivery.

(** ** File upload *)

Module Files.

(** [FileSystem.FileSystemUploadType] *)
Inductive FileSystemUploadType : Type :=
| BINARY_CONTENT
| MULTIPART.

(** The options [files.create] gives to [FileSystem.uploadAsync]. *)
Record FileSystemUploadOptions : Type := {
  headers : list (string * string);
  httpMethod : string;
  fieldName : string;
  uploadType : FileSystemUploadType;
  parameters : list (string * string)
}.

(** One call [FileSystem.uploadAsync(url, fileUri, options)]. *)
Record Upload : Type := {
  url : string;
  fileUri : string;
  options : FileSystemUploadOptions
}.

(** [FileSystemUploadResult] *)
Record FileSystemUploadResult : Type := {
  body : string;
  status : nat;
  response_headers : list (string * string)
}.

Section Create.
Context `{host : Host}.

(** [FileSystem.uploadAsync]: the promise it returns is fulfilled with a
    response or rejected with a reason. *)
Variable uploadAsync : Upload -> Completion FileSystemUploadResult.

(** [files.create(filePath, purpose)]: how the promise it returns
    settles. *)
Definition create (this : OpenAI) (filePath purpose : string)
  : Completion (JSValue Number) :=
  match uploadAsync
          {| url := baseURL this +:+ "/files";
             fileUri := filePath;
             options :=
               {| headers := [("Authorization", "Bearer " +:+ apiKey this)];
                  httpMethod := "POST";
                  fieldName := "file";
                  uploadType := MULTIPART;
                  parameters := [("purpose", purpose)] |} |} with
  | Normal response => parse (body response)
  | Throw e => Throw e
  end.
End Create.
End Files.

(** Further callbacks and servers for the scenarios. *)
Module Cases.
Import Reference Scenario.

(** The caller supplies no [onError]. *)
Definition without_onError : onEvents nat :=
  {| onError := None; onOpen := Some counting; onDone := Some counting |}.

(** Callers whose [onDone], or whose [onError], throws. *)
Definition throwing_onDone : onEvents nat :=
  {| onError := Some counting; onOpen := Some counting;
     onDone := Some (throwing (JSError "Error" "boom")) |}.

Definition throwing_onError : onEvents nat :=
  {| onError := Some (throwing (JSError "Error" "boom")); onOpen := Some counting;
     onDone := Some counting |}.

(** A transport that keeps dispatching after the teardown. *)
Definition after_teardown : list TransportEvent :=
  [EvOpen; frame id_1; frame bad_json; EvError connection_failure; EvOpen].

(** A server that answers every upload with the same response. *)
Definition answering (response : Files.FileSystemUploadResult)
  : Files.Upload -> Completion Files.FileSystemUploadResult :=
  fun _ => Normal response.

(** An error response whose body is a JSON document. *)
Definition unauthorized : Files.FileSystemUploadResult :=
  {| Files.body := "{" +:+ q +:+ "error" +:+ q +:+ ":" +:+ q +:+ "invalid key" +:+ q +:+ "}";
     Files.status := 401;
     Files.response_headers := [] |}.

(** A gateway error page. *)
Definition bad_gateway : Files.FileSystemUploadResult :=
  {| Files.body := "<html>502</html>";
     Files.status := 502;
     Files.response_headers := [] |}.

(** A second caller object, at location 2. *)
Definition two_callers : gmap loc (list (string * JSValue string)) :=
  <[2%positive := [("assistant_id", JSString "asst_1")]]> heap.
End Cases.

(** * Properties of the session *)

Section Properties.
Context `{host : Host} {W : Type}.
Implicit Types (onData : Callback W (JSValue Number)) (callbacks : onEvents W)
  (st : State W) (ev : TransportEvent) (text : string)
  (events : list TransportEvent).

(** Unfolds one listener run down to the calls of the callbacks. *)
Ltac unfold_listener :=
  cbv beta iota zeta delta
    [dispatch listener frame message_listener error_listener open_listener
     stream_ends optional_call try_catch bind lift invoke ret close data].

(** A callback that returns normally does not complete with [Throw]. *)
Ltac absurd_throw H :=
  match goal with
  | Hf : ?f ?a ?w = (Throw _, _) |- _ =>
      let E := fresh in pose proof (H a w) as E; rewrite Hf in E; discriminate E
  end.

Lemma text_not_empty text : text <> EmptyString -> String.eqb text EmptyString = false.
Proof. intros H. apply String.eqb_neq. exact H. Qed.

Lemma text_not_sentinel text : text <> "[DONE]" -> String.eqb text "[DONE]" = false.
Proof. intros H. apply String.eqb_neq. exact H. Qed.

(** The sentinel frame: [onDone] when supplied, then [close()]. *)
Lemma stream_ends_returns callbacks st :
  returns (onDone callbacks) ->
  exists w,
    stream_ends callbacks st =
      (Normal tt,
       {| world := w; closed := true;
          trace := trace st ++ when_supplied (onDone callbacks) CallOnDone
                     ++ [CloseConnection] |}).
Proof.
  intros Hret. destruct callbacks as [oe oo [f|]]; simpl in *.
  - specialize (Hret tt (world st)).
    unfold stream_ends, optional_call, bind, invoke, ret, close; simpl.
    destruct (f tt (world st)) as [[[]|e] w]; simpl in *; [|discriminate].
    exists w. rewrite <- app_assoc. reflexivity.
  - exists (world st). reflexivity.
Qed.

Lemma terminal_frame_run onData callbacks event st :
  data event = Some "[DONE]" \/ data event = Some EmptyString \/ data event = None ->
  returns (onDone callbacks) ->
  trace (dispatch onData callbacks (EvMessage event) st)
    = trace st ++ when_supplied (onDone callbacks) CallOnDone ++ [CloseConnection]
  /\ closed (dispatch onData callbacks (EvMessage event) st) = true.
Proof.
  intros Hdata Hret. destruct (stream_ends_returns callbacks st Hret) as [w Hw].
  unfold dispatch, listener, message_listener.
  destruct Hdata as [-> | [-> | ->]]; simpl; rewrite Hw; simpl; split; reflexivity.
Qed.

(** A frame that ends the stream invokes [onDone] when supplied and no
    other callback, whatever [onDone] does. *)
Lemma terminal_frame_invocations onData callbacks event st :
  data event = Some "[DONE]" \/ data event = Some EmptyString \/ data event = None ->
  invocations (trace (dispatch onData callbacks (EvMessage event) st))
    = invocations (trace st) ++ when_supplied (onDone callbacks) CallOnDone.
Proof.
  intros Hdata. destruct event as [d]. simpl in Hdata.
  destruct callbacks as [oe oo [fd|]];
    destruct Hdata as [-> | [-> | ->]]; unfold_listener; unfold record; simpl;
    try (destruct (fd tt (world st)) as [[[]|e] w']; simpl);
    unfold invocations; rewrite !List.filter_app; simpl; rewrite ?app_nil_r;
    reflexivity.
Qed.

(** C3, amended. For every frame whose payload is the sentinel "[DONE]"
    the session invokes [onDone] (when supplied) and neither [onError] nor
    [onData]; when [onDone] returns normally, the session then closes the
    connection, and the frame adds nothing else to the trace. *)
Theorem sentinel_ends_stream onData callbacks st :
  invocations (trace (dispatch onData callbacks (frame "[DONE]") st))
    = invocations (trace st) ++ when_supplied (onDone callbacks) CallOnDone
  /\ (returns (onDone callbacks) ->
      trace (dispatch onData callbacks (frame "[DONE]") st)
        = trace st ++ when_supplied (onDone callbacks) CallOnDone ++ [CloseConnection]
      /\ closed (dispatch onData callbacks (frame "[DONE]") st) = true).
Proof.
  split.
  - apply terminal_frame_invocations. left; reflexivity.
  - intros Hret. apply terminal_frame_run; [left; reflexivity | exact Hret].
Qed.

(** C10, amended. A frame whose payload is the empty string is handled
    exactly as the sentinel frame: the two dispatches are equal, [onDone]
    is invoked (when supplied) and no other callback, and when [onDone]
    returns normally the connection is then closed. *)
Theorem empty_payload_ends_stream onData callbacks st :
  dispatch onData callbacks (frame EmptyString) st
    = dispatch onData callbacks (frame "[DONE]") st
  /\ invocations (trace (dispatch onData callbacks (frame EmptyString) st))
     = invocations (trace st) ++ when_supplied (onDone callbacks) CallOnDone
  /\ (returns (onDone callbacks) ->
      trace (dispatch onData callbacks (frame EmptyString) st)
        = trace st ++ when_supplied (onDone callbacks) CallOnDone ++ [CloseConnection]
      /\ closed (dispatch onData callbacks (frame EmptyString) st) = true).
Proof.
  split; [reflexivity|]. split.
  - apply terminal_frame_invocations. right; left; reflexivity.
  - intros Hret. apply terminal_frame_run; [right; left; reflexivity | exact Hret].
Qed.

(** Once the connection is closed, a transport that dispatches nothing
    after [close()] has nothing left to dispatch. *)
Lemma quiet_after_close_closed onData callbacks events st :
  closed st = true ->
  quiet_after_close onData callbacks events st = true ->
  events = [].
Proof.
  intros Hc Hq. destruct events as [|ev rest]; [reflexivity|].
  simpl in Hq. rewrite Hc in Hq. discriminate Hq.
Qed.

Lemma onData_calls_app (t1 t2 : list Action) :
  onData_calls (t1 ++ t2) = onData_calls t1 ++ onData_calls t2.
Proof.
  induction t1 as [|a t1 IH]; [reflexivity|].
  destruct a; simpl; rewrite IH; reflexivity.
Qed.

Lemma invocations_app (t1 t2 : list Action) :
  invocations (t1 ++ t2) = invocations t1 ++ invocations t2.
Proof. apply List.filter_app. Qed.

Lemma get_message_SyntaxError (message : string) :
  get_message (JSError "SyntaxError" message) = Normal (JSString message).
Proof. reflexivity. Qed.








(** What one dispatched event adds to the trace: nothing is invoked
    after a terminal callback, and while the connection stays open no
    terminal callback has been invoked. *)
Lemma dispatch_actions onData callbacks ev st :
  returns (onError callbacks) -> returns (onDone callbacks) ->
  exists acts,
    trace (dispatch onData callbacks ev st) = trace st ++ acts
    /\ terminal_once acts = true
    /\ (closed (dispatch onData callbacks ev st) = false ->
        forallb (fun a => negb (is_terminal a)) acts = true).
Proof.
  intros HretE HretD.
  destruct callbacks as [[fe|] [fo|] [fd|]]; simpl in HretE, HretD;
    destruct ev as [|[[text|]]|error]; unfold_listener; unfold parse, record; simpl;
    repeat (case_match; simplify_eq/=);
    rewrite <- ?app_assoc; simpl;
    try (eexists; split; [reflexivity|]; split; [reflexivity|];
         intros; first [discriminate | reflexivity]).
  all: try absurd_throw HretE.
  all: try absurd_throw HretD.
  all: exists []; rewrite app_nil_r; repeat split.
Qed.

Lemma terminal_once_app (t acts : list Action) :
  forallb (fun a => negb (is_terminal a)) t = true ->
  terminal_once (t ++ acts) = terminal_once acts.
Proof.
  induction t as [|a t IH]; simpl; [reflexivity|].
  intros H. apply andb_prop in H as [Ha Ht].
  destruct (is_terminal a); [discriminate Ha|]. apply IH, Ht.
Qed.

Lemma no_callback_no_terminal (t : list Action) :
  forallb (fun b => negb (is_callback b)) t = true -> List.filter is_terminal t = [].
Proof.
  induction t as [|a t IH]; simpl; [reflexivity|].
  intros H. apply andb_prop in H as [Ha Ht].
  destruct a; simpl in *; try discriminate Ha; apply IH, Ht.
Qed.

Lemma terminal_once_count (t : list Action) :
  terminal_once t = true -> length (List.filter is_terminal t) <= 1.
Proof.
  induction t as [|a t IH]; simpl; [lia|].
  destruct (is_terminal a); simpl; intros H.
  - rewrite (no_callback_no_terminal t H). simpl. lia.
  - apply IH, H.
Qed.

Lemma run_terminal_once onData callbacks events st :
  returns (onError callbacks) -> returns (onDone callbacks) ->
  forallb (fun a => negb (is_terminal a)) (trace st) = true ->
  quiet_after_close onData callbacks events st = true ->
  terminal_once (trace (run onData callbacks events st)) = true.
Proof.
  intros HretE HretD. revert st.
  induction events as [|ev rest IH]; intros st Hnone Hquiet; simpl.
  - rewrite <- (app_nil_r (trace st)). rewrite terminal_once_app; [reflexivity|exact Hnone].
  - simpl in Hquiet. apply andb_prop in Hquiet as [_ Hquiet].
    destruct (dispatch_actions onData callbacks ev st HretE HretD)
      as (acts & Htrace & Honce & Hopen).
    destruct (closed (dispatch onData callbacks ev st)) eqn:Hclosed.
    + rewrite (quiet_after_close_closed _ _ _ _ Hclosed Hquiet). simpl.
      rewrite Htrace, terminal_once_app; [exact Honce|exact Hnone].
    + apply IH; [|exact Hquiet].
      rewrite Htrace, forallb_app, Hnone, (Hopen eq_refl). reflexivity.
Qed.

(** C1, amended. When the transport dispatches no event after [close()]
    has been called, and [onError] and [onDone] return normally, at most
    one terminal callback is invoked in a session and no callback is
    invoked after it. *)
Theorem one_terminal_callback onData callbacks events w :
  returns (onError callbacks) -> returns (onDone callbacks) ->
  quiet_after_close onData callbacks events (initial w) = true ->
  terminal_once (trace (run onData callbacks events (initial w))) = true
  /\ length (List.filter is_terminal (trace (run onData callbacks events (initial w))))
     <= 1.
Proof.
  intros HretE HretD Hquiet.
  assert (H : terminal_once (trace (run onData callbacks events (initial w))) = true).
  { apply run_terminal_once; [exact HretE | exact HretD | reflexivity | exact Hquiet]. }
  split; [exact H | apply terminal_once_count, H].
Qed.

Lemma whitespace_only_not_sentinel text : whitespace_only text = true -> text <> "[DONE]".
Proof. intros H ->. discriminate H. Qed.

(** C5, amended. A frame whose payload is empty or whitespace-only never
    reaches [onData]; the empty payload invokes [onDone] (when supplied)
    and no other callback, and a non-empty whitespace-only payload, which
    [JSON.parse] rejects, invokes [onError] (when supplied) with the parse
    error and no other callback. *)
Theorem blank_payload_never_reaches_onData onData callbacks text st :
  whitespace_only text = true ->
  (forall t, whitespace_only t = true -> t <> EmptyString ->
             exists message, JSON_parse t = inr message) ->
  let st' := dispatch onData callbacks (frame text) st in
  onData_calls (trace st') = onData_calls (trace st)
  /\ (text = EmptyString ->
      invocations (trace st')
        = invocations (trace st) ++ when_supplied (onDone callbacks) CallOnDone)
  /\ (text <> EmptyString ->
      exists message,
        JSON_parse text = inr message
        /\ invocations (trace st')
           = invocations (trace st)
               ++ when_supplied (onError callbacks)
                    (CallOnError (new_Error ("JSON Parse on " +:+ text
                                             +:+ " with error " +:+ message)))).
Proof.
  intros Hblank Hparser st'.
  assert (Hempty : text = EmptyString ->
    onData_calls (trace st') = onData_calls (trace st)
    /\ invocations (trace st')
       = invocations (trace st) ++ when_supplied (onDone callbacks) CallOnDone).
  { intros ->. subst st'. destruct callbacks as [oe oo [fd|]];
      unfold_listener; unfold record; simpl.
    - destruct (fd tt (world st)) as [[[]|e] w']; simpl;
        rewrite !onData_calls_app, !invocations_app; simpl;
        rewrite ?app_nil_r; split; reflexivity.
    - rewrite onData_calls_app, invocations_app; simpl.
      rewrite ?app_nil_r; split; reflexivity. }
  assert (Hrest : text <> EmptyString ->
    exists message, JSON_parse text = inr message
    /\ onData_calls (trace st') = onData_calls (trace st)
    /\ invocations (trace st')
       = invocations (trace st)
           ++ when_supplied (onError callbacks)
                (CallOnError (new_Error ("JSON Parse on " +:+ text
                                         +:+ " with error " +:+ message)))).
  { intros Hne. destruct (Hparser text Hblank Hne) as [message Hparse].
    exists message. split; [exact Hparse|].
    pose proof (whitespace_only_not_sentinel text Hblank) as Hns.
    subst st'. destruct callbacks as [[fe|] oo od];
      unfold_listener; unfold record; simpl;
      rewrite (text_not_empty _ Hne), (text_not_sentinel _ Hns); simpl;
      unfold parse; rewrite Hparse; simpl.
    - match goal with
      | |- context [fe ?a ?w] => destruct (fe a w) as [[[]|e] w']
      end; simpl; rewrite !onData_calls_app, !invocations_app; simpl;
        rewrite ?app_nil_r; split; reflexivity.
    - rewrite onData_calls_app, invocations_app; simpl.
      rewrite ?app_nil_r; split; reflexivity. }
  split; [|split].
  - destruct (decide (text = EmptyString)) as [He|Hne].
    + apply (Hempty He).
    + destruct (Hrest Hne) as (message & _ & H & _). exact H.
  - intros He. apply (Hempty He).
  - intros Hne. destruct (Hrest Hne) as (message & Hparse & _ & H).
    exists message. split; [exact Hparse | exact H].
Qed.

(** ** Transport errors *)

Lemma run_app onData callbacks (pre post : list TransportEvent) st :
  run onData callbacks (pre ++ post) st
    = run onData callbacks post (run onData callbacks pre st).
Proof. revert st. induction pre as [|ev pre IH]; intros st; simpl; [reflexivity | apply IH]. Qed.

Lemma quiet_after_close_app onData callbacks (pre post : list TransportEvent) st :
  quiet_after_close onData callbacks (pre ++ post) st = true ->
  quiet_after_close onData callbacks pre st = true
  /\ quiet_after_close onData callbacks post (run onData callbacks pre st) = true.
Proof.
  revert st. induction pre as [|ev pre IH]; intros st Hq; simpl in *.
  - split; [reflexivity | exact Hq].
  - apply andb_prop in Hq as [Hopen Hq]. destruct (IH _ Hq) as [Hpre Hpost].
    rewrite Hopen, Hpre. split; [reflexivity | exact Hpost].
Qed.

(** While the connection is open no terminal callback has been invoked. *)
Lemma open_run_no_terminal onData callbacks events st :
  returns (onError callbacks) -> returns (onDone callbacks) ->
  forallb (fun a => negb (is_terminal a)) (trace st) = true ->
  quiet_after_close onData callbacks events st = true ->
  closed (run onData callbacks events st) = false ->
  forallb (fun a => negb (is_terminal a)) (trace (run onData callbacks events st)) = true.
Proof.
  intros HretE HretD. revert st.
  induction events as [|ev rest IH]; intros st Hnone Hquiet Hopen; simpl in *.
  - exact Hnone.
  - apply andb_prop in Hquiet as [_ Hquiet].
    destruct (dispatch_actions onData callbacks ev st HretE HretD)
      as (acts & Htrace & _ & Hacts).
    destruct (closed (dispatch onData callbacks ev st)) eqn:Hclosed.
    + rewrite (quiet_after_close_closed _ _ _ _ Hclosed Hquiet) in Hopen.
      simpl in Hopen. congruence.
    + apply IH; [|exact Hquiet|exact Hopen].
      rewrite Htrace, forallb_app, Hnone, (Hacts eq_refl). reflexivity.
Qed.

Lemma no_terminal_filter_nil (t : list Action) :
  forallb (fun a => negb (is_terminal a)) t = true -> List.filter is_terminal t = [].
Proof.
  induction t as [|a t IH]; simpl; [reflexivity|].
  intros H. apply andb_prop in H as [Ha Ht].
  destruct (is_terminal a); [discriminate Ha | apply IH, Ht].
Qed.

(** Only an open event invokes [onOpen]. *)
Lemma dispatch_no_onOpen onData callbacks ev st :
  ev <> EvOpen -> ~ In CallOnOpen (trace st) ->
  ~ In CallOnOpen (trace (dispatch onData callbacks ev st)).
Proof.
  intros Hev Hnone.
  destruct callbacks as [[fe|] oo [fd|]];
    destruct ev as [|[[text|]]|error]; try congruence;
    unfold_listener; unfold parse, record; simpl;
    repeat (case_match; simplify_eq/=);
    rewrite ?in_app_iff; simpl; intuition congruence.
Qed.

Lemma run_no_onOpen onData callbacks events st :
  Forall (fun ev => ev <> EvOpen) events -> ~ In CallOnOpen (trace st) ->
  ~ In CallOnOpen (trace (run onData callbacks events st)).
Proof.
  intros Hall. revert st. induction Hall as [|ev rest Hev _ IH]; intros st Hnone; simpl.
  - exact Hnone.
  - apply IH, dispatch_no_onOpen; [exact Hev | exact Hnone].
Qed.

Lemma error_event_run onData callbacks error st :
  returns (onError callbacks) ->
  trace (dispatch onData callbacks (EvError error) st)
    = trace st ++ when_supplied (onError callbacks) (CallOnError error)
        ++ [CloseConnection]
  /\ closed (dispatch onData callbacks (EvError error) st) = true.
Proof.
  intros Hret. destruct callbacks as [[f|] oo od]; simpl in *.
  - specialize (Hret error (world st)).
    unfold dispatch, listener, error_listener, optional_call, bind, invoke, ret, close.
    simpl. destruct (f error (world st)) as [[[]|e] w']; simpl in *; [|discriminate].
    rewrite <- app_assoc. split; reflexivity.
  - split; reflexivity.
Qed.

(** C6, amended. In any session state a transport error invokes [onError]
    with that error (when supplied) and no other callback, and when
    [onError] returns normally the session then closes the connection.
    In a session whose transport dispatches nothing after [close()] and
    whose [onError] and [onDone] return normally, a transport error makes
    that [onError] the session's only terminal callback: one [onError]
    (when supplied) and no [onDone], and no [onOpen] either when the
    session never opened. *)
Theorem transport_error_reported onData callbacks error st
    (before : list TransportEvent) w :
  invocations (trace (dispatch onData callbacks (EvError error) st))
    = invocations (trace st) ++ when_supplied (onError callbacks) (CallOnError error)
  /\ (returns (onError callbacks) ->
      trace (dispatch onData callbacks (EvError error) st)
        = trace st ++ when_supplied (onError callbacks) (CallOnError error)
            ++ [CloseConnection]
      /\ closed (dispatch onData callbacks (EvError error) st) = true)
  /\ (returns (onError callbacks) -> returns (onDone callbacks) ->
      quiet_after_close onData callbacks (before ++ [EvError error]) (initial w) = true ->
      List.filter is_terminal
        (trace (run onData callbacks (before ++ [EvError error]) (initial w)))
        = when_supplied (onError callbacks) (CallOnError error)
      /\ (Forall (fun ev => ev <> EvOpen) before ->
          ~ In CallOnOpen
              (trace (run onData callbacks (before ++ [EvError error]) (initial w))))).
Proof.
  split; [|split].
  - destruct callbacks as [[fe|] oo od]; unfold_listener; unfold record; simpl;
      try (destruct (fe error (world st)) as [[[]|e] w']; simpl);
      unfold invocations; rewrite !List.filter_app; simpl; rewrite ?app_nil_r;
      reflexivity.
  - apply error_event_run.
  - intros HretE HretD Hquiet.
    destruct (quiet_after_close_app _ _ _ _ _ Hquiet) as [Hbefore Hlast].
    simpl in Hlast. apply andb_prop in Hlast as [Hopen _].
    apply negb_true_iff in Hopen.
    pose proof (open_run_no_terminal onData callbacks before (initial w)
                  HretE HretD eq_refl Hbefore Hopen) as Hnone.
    rewrite run_app. simpl.
    destruct (error_event_run onData callbacks error
                (run onData callbacks before (initial w)) HretE) as [Htrace _].
    split.
    + rewrite Htrace, List.filter_app, (no_terminal_filter_nil _ Hnone). simpl.
      destruct (onError callbacks); reflexivity.
    + intros Hnever. apply dispatch_no_onOpen; [discriminate|].
      apply run_no_onOpen; [exact Hnever|]. simpl. tauto.
Qed.

(** ** The request *)

Lemma get_set_property_eq {V} (k : string) (v : V) (props : list (string * V)) :
  get_property k (set_property k v props) = Some v.
Proof.
  induction props as [|[k' v'] props IH]; simpl.
  - rewrite decide_True; reflexivity.
  - destruct (decide (k' = k)) as [->|Hne]; simpl.
    + rewrite decide_True; reflexivity.
    + rewrite decide_False; [exact IH | exact Hne].
Qed.

Lemma get_set_property_ne {V} (k k0 : string) (v : V) (props : list (string * V)) :
  k0 <> k -> get_property k0 (set_property k v props) = get_property k0 props.
Proof.
  intros Hne. induction props as [|[k' v'] props IH]; simpl.
  - rewrite decide_False; [reflexivity | congruence].
  - destruct (decide (k' = k)) as [->|Hk]; simpl.
    + rewrite !decide_False; [reflexivity | congruence | congruence].
    + destruct (decide (k' = k0)); [reflexivity | exact IH].
Qed.

(** A key that is present keeps its place; a new key goes last. *)
Lemma set_property_keys {V} (k : string) (v : V) (props : list (string * V)) :
  List.map fst (set_property k v props)
    = match get_property k props with
      | Some _ => List.map fst props
      | None => List.map fst props ++ [k]
      end.
Proof.
  induction props as [|[k' v'] props IH]; simpl; [reflexivity|].
  destruct (decide (k' = k)) as [->|Hne]; simpl; [reflexivity|].
  rewrite IH. destruct (get_property k props); reflexivity.
Qed.

Lemma fresh_location (h : gmap loc (list (string * JSValue Number))) :
  h !! fresh (dom h) = None.
Proof. apply not_elem_of_dom, is_fresh. Qed.

(** C7. The request [_stream] issues is a POST to the given endpoint with
    the headers [Authorization: Bearer <apiKey>] and
    [Content-Type: application/json], and its body is the JSON
    serialization of the caller's parameters with [stream] set to [true]:
    [stream] reads [true] and every other key reads as in the caller's
    parameters. *)
Theorem stream_request (this : OpenAI) (endpoint : string) (params : loc) onData callbacks
    (h : gmap loc (list (string * JSValue Number))) :
  let eventSource := fst (_stream this endpoint params onData callbacks h) in
  let requestBody := set_property "stream" (JSBool true) (own_properties h params) in
  url eventSource = endpoint
  /\ method (options eventSource) = "POST"
  /\ headers (options eventSource)
     = [("Authorization", "Bearer " +:+ apiKey this);
        ("Content-Type", "application/json")]
  /\ body (options eventSource) = JSON_stringify (JSObject requestBody)
  /\ get_property "stream" requestBody = Some (JSBool true)
  /\ forall k, k <> "stream" ->
               get_property k requestBody = get_property k (own_properties h params).
Proof.
  intros eventSource requestBody. subst eventSource requestBody.
  unfold _stream. simpl.
  repeat split.
  - unfold own_properties at 1. rewrite lookup_insert_eq. reflexivity.
  - apply get_set_property_eq.
  - intros k Hk. apply get_set_property_ne, Hk.
Qed.

(** C9. [_stream] does not mutate the caller's parameters: after the call
    the caller's object holds the properties it held before, every
    object that existed is unchanged, and the request body is a new
    object that layers [stream: true] over the caller's properties. *)
Theorem params_not_mutated (this : OpenAI) (endpoint : string) (params : loc) onData
    callbacks (h : gmap loc (list (string * JSValue Number)))
    (props : list (string * JSValue Number)) :
  h !! params = Some props ->
  let h' := snd (_stream this endpoint params onData callbacks h) in
  h' !! params = Some props
  /\ (forall l, is_Some (h !! l) -> h' !! l = h !! l)
  /\ exists requestBody,
       h !! requestBody = None
       /\ h' !! requestBody = Some (set_property "stream" (JSBool true) props).
Proof.
  intros Hparams h'. subst h'. unfold _stream. simpl.
  pose proof (fresh_location h) as Hfresh.
  assert (Hframe : forall l, is_Some (h !! l) ->
    <[fresh (dom h) := set_property "stream" (JSBool true) (own_properties h params)]> h
      !! l = h !! l).
  { intros l [x Hl]. apply lookup_insert_ne. intros <-. congruence. }
  split; [|split].
  - rewrite Hframe; [exact Hparams | eauto].
  - exact Hframe.
  - exists (fresh (dom h)). split; [exact Hfresh|].
    rewrite lookup_insert_eq. unfold own_properties. rewrite Hparams. reflexivity.
Qed.

(** The listeners [_stream] registers are the three above. *)
Lemma stream_listeners (this : OpenAI) (endpoint : string) (params : loc) onData callbacks
    (h : gmap loc (list (string * JSValue Number))) ev :
  listeners (fst (_stream this endpoint params onData callbacks h)) ev
    = listener onData callbacks ev.
Proof. reflexivity. Qed.

Lemma chat_completions_endpoint (this : OpenAI) (params : loc) onData callbacks
    (h : gmap loc (list (string * JSValue Number))) :
  url (fst (chat_completions_stream this params onData callbacks h))
    = baseURL this +:+ "/chat/completions".
Proof. reflexivity. Qed.

Lemma threads_runs_endpoint (this : OpenAI) (threadId : string) (params : loc) onData
    callbacks (h : gmap loc (list (string * JSValue Number))) :
  url (fst (beta_threads_runs_stream this threadId params onData callbacks h))
    = baseURL this +:+ "/threads/" +:+ threadId +:+ "/runs".
Proof. reflexivity. Qed.

(** ** Exceptions thrown by the caller's callbacks *)

(** [onData] is called inside the [try] block: what it throws is caught,
    reported through [onError] as a JSON parse error, and the connection
    is closed. *)
Lemma onData_exception_caught onData callbacks f text v e message st w1 w2 :
  text <> EmptyString -> text <> "[DONE]" -> JSON_parse text = inl v ->
  onData v (world st) = (Throw e, w1) ->
  get_message e = Normal message ->
  onError callbacks = Some f ->
  f (new_Error ("JSON Parse on " +:+ text +:+ " with error " +:+ ToString message)) w1
    = (Normal tt, w2) ->
  dispatch onData callbacks (frame text) st
    = {| world := w2; closed := true;
         trace := trace st
                    ++ [CallOnData v;
                        CallOnError (new_Error ("JSON Parse on " +:+ text
                                                +:+ " with error "
                                                +:+ ToString message));
                        CloseConnection] |}.
Proof.
  intros Hne Hns Hparse HonData Hmessage HonError Hf.
  unfold_listener; simpl.
  rewrite (text_not_empty _ Hne), (text_not_sentinel _ Hns). simpl.
  unfold parse. rewrite Hparse. simpl. rewrite HonData, HonError. simpl.
  rewrite Hmessage. simpl. rewrite Hf. simpl.
  rewrite <- !app_assoc. reflexivity.
Qed.

(** The other callbacks are called outside any [try]: what they throw
    leaves the listener, and the [close()] that follows is skipped. *)
Lemma onDone_exception_propagates onData callbacks f e st w1 :
  onDone callbacks = Some f -> f tt (world st) = (Throw e, w1) ->
  dispatch onData callbacks (frame "[DONE]") st
    = {| world := w1; closed := closed st;
         trace := trace st ++ [CallOnDone; Uncaught e] |}.
Proof.
  intros HonDone Hf. unfold_listener; simpl. rewrite HonDone. simpl. rewrite Hf.
  unfold record. simpl. rewrite <- app_assoc. reflexivity.
Qed.

Lemma onError_exception_propagates onData callbacks f error e st w1 :
  onError callbacks = Some f -> f error (world st) = (Throw e, w1) ->
  dispatch onData callbacks (EvError error) st
    = {| world := w1; closed := closed st;
         trace := trace st ++ [CallOnError error; Uncaught e] |}.
Proof.
  intros HonError Hf. unfold_listener; simpl. rewrite HonError. simpl. rewrite Hf.
  unfold record. simpl. rewrite <- app_assoc. reflexivity.
Qed.

Lemma onOpen_exception_propagates onData callbacks f e st w1 :
  onOpen callbacks = Some f -> f tt (world st) = (Throw e, w1) ->
  dispatch onData callbacks EvOpen st
    = {| world := w1; closed := closed st;
         trace := trace st ++ [CallOnOpen; Uncaught e] |}.
Proof.
  intros HonOpen Hf. unfold_listener; simpl. rewrite HonOpen. simpl. rewrite Hf.
  unfold record. simpl. rewrite <- app_assoc. reflexivity.
Qed.
End Properties.

(** * The reference host and the scenarios *)

Section ReferenceHost.
Import Reference.

Lemma skip_ws_blank (t : string) :
  whitespace_only t = true -> skip_ws (list_ascii_of_string t) = [].
Proof.
  induction t as [|c t IH]; simpl; [reflexivity|].
  intros H. apply andb_prop in H as [Hc Ht].
  unfold is_ws. rewrite Hc. apply IH, Ht.
Qed.

(** [JSON.parse] rejects a text that holds no value. *)
Lemma parse_text_rejects_blank (t : string) :
  whitespace_only t = true -> exists message, parse_text t = inr message.
Proof.
  intros H. unfold parse_text. rewrite (skip_ws_blank t H). eauto.
Qed.
End ReferenceHost.

Section Scenarios.
Import Reference Scenario.

(** Scenario A: two frames, then the sentinel. *)
Example scenario_A :
  trace (run counting callbacks [EvOpen; frame id_1; frame id_2; frame "[DONE]"]
           (initial 0))
    = [CallOnOpen;
       CallOnData (JSObject [("id", JSNumber "1")]);
       CallOnData (JSObject [("id", JSNumber "2")]);
       CallOnDone; CloseConnection].
Proof. reflexivity. Qed.

(** Scenario B: a frame, then a malformed frame. *)
Example scenario_B :
  trace (run counting callbacks [EvOpen; frame id_1; frame bad_json] (initial 0))
    = [CallOnOpen;
       CallOnData (JSObject [("id", JSNumber "1")]);
       CallOnError (JSError "Error"
                      "JSON Parse on {bad json with error Unexpected token in JSON");
       CloseConnection].
Proof. reflexivity. Qed.

(** Scenario C: the connection fails before it opens. *)
Example scenario_C :
  trace (run counting callbacks [EvError connection_failure] (initial 0))
    = [CallOnError connection_failure; CloseConnection].
Proof. reflexivity. Qed.

Example request_body :
  body (options (fst (chat_completions_stream client params counting callbacks heap)))
    = "{" +:+ q +:+ "model" +:+ q +:+ ":" +:+ q +:+ "gpt-4o" +:+ q +:+ ","
      +:+ q +:+ "stream" +:+ q +:+ ":true}".
Proof. vm_compute. reflexivity. Qed.

Lemma counting_returns {A} : returns (Some (@counting A)).
Proof. intros a n. reflexivity. Qed.

(** C1, as stated, fails: a transport error that arrives after the
    teardown for a malformed frame invokes [onError] a second time. *)
Lemma second_terminal_callback :
  trace (run counting callbacks [frame bad_json; EvError connection_failure]
           (initial 0))
    = [CallOnError (JSError "Error"
                      "JSON Parse on {bad json with error Unexpected token in JSON");
       CloseConnection;
       CallOnError connection_failure;
       CloseConnection]
  /\ terminal_once
       (trace (run counting callbacks [frame bad_json; EvError connection_failure]
                 (initial 0)))
     = false.
Proof. split; reflexivity. Qed.

(** Frames of one read are all dispatched: the frame after a malformed
    one still reaches [onData]. *)
Example frame_after_malformed_frame :
  trace (run counting callbacks [frame bad_json; frame id_1] (initial 0))
    = [CallOnError (JSError "Error"
                      "JSON Parse on {bad json with error Unexpected token in JSON");
       CloseConnection;
       CallOnData (JSObject [("id", JSNumber "1")])].
Proof. reflexivity. Qed.

(** C1, amended, on scenario A. *)
Lemma one_terminal_callback_witness :
  returns (onError callbacks) /\ returns (onDone callbacks)
  /\ quiet_after_close counting callbacks
       [EvOpen; frame id_1; frame id_2; frame "[DONE]"] (initial 0) = true
  /\ terminal_once
       (trace (run counting callbacks
                 [EvOpen; frame id_1; frame id_2; frame "[DONE]"] (initial 0)))
     = true.
Proof.
  split; [intros a n; reflexivity|].
  split; [intros a n; reflexivity|].
  split; [reflexivity|].
  apply (proj1 (one_terminal_callback counting callbacks
                  [EvOpen; frame id_1; frame id_2; frame "[DONE]"] 0
                  counting_returns counting_returns eq_refl)).
Defined.



(** C3, as stated, fails: when [onDone] throws, the exception leaves
    the listener and [close()] is not reached. *)
Lemma sentinel_with_throwing_onDone :
  dispatch counting Cases.throwing_onDone (frame "[DONE]") (initial 0)
    = {| world := 0; closed := false;
         trace := [CallOnDone; Uncaught (JSError "Error" "boom")] |}.
Proof. reflexivity. Qed.

(** C3, amended, on a session that has just started. *)
Lemma sentinel_ends_stream_witness :
  returns (onDone callbacks)
  /\ trace (dispatch counting callbacks (frame "[DONE]") (initial 0))
     = [CallOnDone; CloseConnection]
  /\ closed (dispatch counting callbacks (frame "[DONE]") (initial 0)) = true.
Proof.
  split; [intros a n; reflexivity|].
  apply (proj2 (sentinel_ends_stream counting callbacks (initial 0))).
  intros a n; reflexivity.
Defined.


(** C5, as stated, fails: the empty payload invokes [onDone], a blank
    one invokes [onError]. *)
Lemma blank_payload_invokes_callbacks :
  trace (dispatch counting callbacks (frame EmptyString) (initial 0))
    = [CallOnDone; CloseConnection]
  /\ trace (dispatch counting callbacks (frame " ") (initial 0))
     = [CallOnError (JSError "Error"
                       "JSON Parse on   with error Unexpected end of JSON input");
        CloseConnection].
Proof. split; reflexivity. Qed.

(** C5, amended, on a payload of one space. *)
Lemma blank_payload_never_reaches_onData_witness :
  whitespace_only " " = true
  /\ (forall t, whitespace_only t = true -> t <> EmptyString ->
                exists message, JSON_parse t = inr message)
  /\ onData_calls (trace (dispatch counting callbacks (frame " ") (initial 0))) = [].
Proof.
  split; [reflexivity|].
  split; [intros t Ht _; apply parse_text_rejects_blank, Ht|].
  apply (blank_payload_never_reaches_onData counting callbacks " " (initial 0)).
  - reflexivity.
  - intros t Ht _. apply parse_text_rejects_blank, Ht.
Defined.

(** C6, as stated, fails: when [onError] throws, [close()] is not
    reached; and a session that never opens and is signalled two errors
    invokes [onError] twice. *)
Lemma transport_error_not_closed_or_repeated :
  dispatch counting Cases.throwing_onError (EvError connection_failure) (initial 0)
    = {| world := 0; closed := false;
         trace := [CallOnError connection_failure; Uncaught (JSError "Error" "boom")] |}
  /\ trace (run counting callbacks
              [EvError connection_failure; EvError connection_failure] (initial 0))
     = [CallOnError connection_failure; CloseConnection;
        CallOnError connection_failure; CloseConnection].
Proof. split; reflexivity. Qed.

(** C6, amended, on a session that is sent one frame and then fails
    without ever opening. *)
Lemma transport_error_reported_witness :
  returns (onError callbacks) /\ returns (onDone callbacks)
  /\ quiet_after_close counting callbacks
       ([frame id_1] ++ [EvError connection_failure]) (initial 0) = true
  /\ Forall (fun ev => ev <> EvOpen) [frame id_1]
  /\ List.filter is_terminal
       (trace (run counting callbacks
                 ([frame id_1] ++ [EvError connection_failure]) (initial 0)))
     = [CallOnError connection_failure]
  /\ ~ In CallOnOpen
         (trace (run counting callbacks
                   ([frame id_1] ++ [EvError connection_failure]) (initial 0))).
Proof.
  assert (Hnever : Forall (fun ev : TransportEvent => ev <> EvOpen) [frame id_1]).
  { repeat constructor. discriminate. }
  split; [intros a n; reflexivity|].
  split; [intros a n; reflexivity|].
  split; [reflexivity|].
  split; [exact Hnever|].
  destruct (proj2 (proj2 (transport_error_reported counting callbacks connection_failure
                            (initial 0) [frame id_1] 0))
              counting_returns counting_returns eq_refl) as [Hone Hopen].
  split; [exact Hone | exact (Hopen Hnever)].
Defined.

(** C9 on parameters that already carry [stream: false]. *)
Lemma params_not_mutated_witness :
  heap !! params = Some model_only
  /\ snd (_stream client "https://api.openai.com/v1/chat/completions" params
            counting callbacks heap) !! params
     = Some model_only.
Proof.
  split; [reflexivity|].
  apply (proj1 (params_not_mutated client "https://api.openai.com/v1/chat/completions"
                  params counting callbacks heap model_only eq_refl)).
Defined.

(** C10, as stated, fails: when [onDone] throws, the empty frame does
    not close the connection. *)
Lemma empty_payload_with_throwing_onDone :
  dispatch counting Cases.throwing_onDone (frame EmptyString) (initial 0)
    = {| world := 0; closed := false;
         trace := [CallOnDone; Uncaught (JSError "Error" "boom")] |}.
Proof. reflexivity. Qed.

(** C10, amended, on a session that has just started. *)
Lemma empty_payload_ends_stream_witness :
  returns (onDone callbacks)
  /\ dispatch counting callbacks (frame EmptyString) (initial 0)
     = dispatch counting callbacks (frame "[DONE]") (initial 0)
  /\ trace (dispatch counting callbacks (frame EmptyString) (initial 0))
     = [CallOnDone; CloseConnection]
  /\ closed (dispatch counting callbacks (frame EmptyString) (initial 0)) = true.
Proof.
  split; [intros a n; reflexivity|].
  split; [apply (proj1 (empty_payload_ends_stream counting callbacks (initial 0)))|].
  apply (proj2 (proj2 (empty_payload_ends_stream counting callbacks (initial 0)))).
  intros a n; reflexivity.
Defined.

(** C8, on the code: an exception thrown by [onData] for a frame that
    parsed does not leave the listener; it is caught, reported through
    [onError] as a JSON parse error, and the connection is closed. *)
Theorem onData_exception_is_reported_as_parse_error :
  dispatch (throwing (JSError "Error" "boom")) callbacks (frame id_1) (initial 0)
    = {| world := 1; closed := true;
         trace := [CallOnData (JSObject [("id", JSNumber "1")]);
                   CallOnError
                     (JSError "Error"
                        ("JSON Parse on " +:+ id_1 +:+ " with error boom"));
                   CloseConnection] |}.
Proof. reflexivity. Qed.
End Scenarios.

(** * Further properties of the listeners *)

Section Listening.
Context `{host : Host} {W : Type}.
Implicit Types (onData : Callback W (JSValue Number)) (callbacks : onEvents W)
  (st : State W) (ev : TransportEvent) (text : string)
  (events : list TransportEvent).

(** One listener run, down to the calls of the callbacks. *)
Ltac listener_steps :=
  cbv beta iota zeta delta
    [dispatch listener frame message_listener error_listener open_listener
     stream_ends optional_call try_catch bind lift invoke ret close data parse record].

Ltac contradict_returns H :=
  match goal with
  | Hf : ?f ?a ?w = (Throw _, _) |- _ =>
      let E := fresh in pose proof (H a w) as E; rewrite Hf in E; discriminate E
  end.



Lemma valid_frame_returns onData callbacks text v st :
  text <> EmptyString -> text <> "[DONE]" -> JSON_parse text = inl v ->
  fst (onData v (world st)) = Normal tt ->
  dispatch onData callbacks (frame text) st
    = {| world := snd (onData v (world st)); closed := closed st;
         trace := trace st ++ [CallOnData v] |}.
Proof.
  intros Hne Hns Hparse Hret. listener_steps; simpl.
  rewrite (text_not_empty _ Hne), (text_not_sentinel _ Hns). simpl.
  rewrite Hparse. destruct (onData v (world st)) as [[[]|e] w']; simpl in *.
  - reflexivity.
  - discriminate Hret.
Qed.

(** X2. While [onData] returns normally, a run of data frames invokes
    nothing but [onData] and leaves the connection as it was. *)
Theorem data_frames_keep_the_session_open onData callbacks (payloads : list string)
    (values : list (JSValue Number)) st :
  (forall v w, fst (onData v w) = Normal tt) ->
  Forall2 (fun text v =>
             text <> EmptyString /\ text <> "[DONE]" /\ JSON_parse text = inl v)
          payloads values ->
  trace (run onData callbacks (List.map frame payloads) st)
    = trace st ++ List.map CallOnData values
  /\ closed (run onData callbacks (List.map frame payloads) st) = closed st.
Proof.
  intros Hret Hvalid. revert st.
  induction Hvalid as [|text v payloads values (Hne & Hns & Hparse) _ IH]; intros st.
  - simpl. rewrite app_nil_r. split; reflexivity.
  - simpl. rewrite (valid_frame_returns _ _ _ _ _ Hne Hns Hparse (Hret _ _)).
    destruct (IH {| world := snd (onData v (world st)); closed := closed st;
                    trace := trace st ++ [CallOnData v] |}) as [Ht Hc].
    rewrite Ht, Hc. simpl. rewrite <- app_assoc. split; reflexivity.
Qed.

(** X3. Without [onError], what [onData] throws is swallowed: nothing is
    reported, nothing leaves the listener, and the connection is
    closed. *)
Theorem onData_exception_swallowed onData callbacks text v e st w1 :
  text <> EmptyString -> text <> "[DONE]" -> JSON_parse text = inl v ->
  onData v (world st) = (Throw e, w1) ->
  onError callbacks = None ->
  dispatch onData callbacks (frame text) st
    = {| world := w1; closed := true;
         trace := trace st ++ [CallOnData v; CloseConnection] |}.
Proof.
  intros Hne Hns Hparse HonData HonError. listener_steps; simpl.
  rewrite (text_not_empty _ Hne), (text_not_sentinel _ Hns). simpl.
  rewrite Hparse, HonData, HonError. simpl. rewrite <- app_assoc. reflexivity.
Qed.

(** X4. When [onData] throws [null] or [undefined] and [onError] is
    supplied, reading [error.message] in the [catch] block raises a
    [TypeError] that leaves the listener: [onError] is not invoked and
    the connection is not closed. *)
Theorem nullish_exception_escapes onData callbacks f text v e st w1 :
  text <> EmptyString -> text <> "[DONE]" -> JSON_parse text = inl v ->
  onData v (world st) = (Throw e, w1) ->
  e = JSNull \/ e = JSUndefined ->
  onError callbacks = Some f ->
  dispatch onData callbacks (frame text) st
    = {| world := w1; closed := closed st;
         trace := trace st ++ [CallOnData v;
                               Uncaught (JSError "TypeError" (nullish_message e))] |}.
Proof.
  intros Hne Hns Hparse HonData He HonError. listener_steps; simpl.
  rewrite (text_not_empty _ Hne), (text_not_sentinel _ Hns). simpl.
  rewrite Hparse, HonData, HonError. simpl.
  destruct He as [-> | ->]; simpl; rewrite <- app_assoc; reflexivity.
Qed.

(** X5. A message that delivers nothing to [onData] (its data is [null],
    empty, the sentinel, or rejected by [JSON.parse]) closes the
    connection, [onError] and [onDone] returning normally. *)
Theorem message_without_data_closes onData callbacks event st :
  returns (onError callbacks) -> returns (onDone callbacks) ->
  deliverable (EvMessage event) = [] ->
  closed (dispatch onData callbacks (EvMessage event) st) = true.
Proof.
  intros HretE HretD Hnone.
  destruct callbacks as [[fe|] [fo|] [fd|]]; simpl in HretE, HretD;
    destruct event as [[text|]]; unfold deliverable in Hnone; simpl in Hnone;
    listener_steps; simpl;
    repeat (case_match; simplify_eq/=); try reflexivity;
    try contradict_returns HretE; try contradict_returns HretD.
Qed.

(** What one event invokes and whether it closes, [onData] returning. *)
Lemma dispatch_expected onData callbacks ev st :
  (forall v w, fst (onData v w) = Normal tt) ->
  returns (onError callbacks) -> returns (onDone callbacks) ->
  invocations (trace (dispatch onData callbacks ev st))
    = invocations (trace st) ++ expected_callbacks callbacks ev
  /\ closed (dispatch onData callbacks ev st) = closed st || closes ev.
Proof.
  intros HretData HretE HretD.
  destruct callbacks as [[fe|] [fo|] [fd|]]; simpl in HretE, HretD;
    destruct ev as [|[[text|]]|error];
    unfold expected_callbacks, closes, deliverable; listener_steps; simpl;
    repeat (case_match; simplify_eq/=);
    rewrite ?invocations_app; simpl; rewrite ?app_nil_r, ?orb_true_r, ?orb_false_r;
    try (split; reflexivity);
    try contradict_returns HretE; try contradict_returns HretD;
    try contradict_returns HretData.
Qed.

(** X6. The listeners keep no memory: when the callbacks return normally,
    the callbacks a run invokes are those each event calls for on its
    own, in order, whatever came before (an open or an error event after
    the teardown still invokes its callback), and the connection ends
    closed exactly when it was closed before or some event was a
    transport error or a message that delivers nothing. *)
Theorem listeners_keep_no_memory onData callbacks events st :
  (forall v w, fst (onData v w) = Normal tt) ->
  returns (onError callbacks) -> returns (onDone callbacks) ->
  invocations (trace (run onData callbacks events st))
    = invocations (trace st) ++ flat_map (expected_callbacks callbacks) events
  /\ closed (run onData callbacks events st) = closed st || existsb closes events.
Proof.
  intros HretData HretE HretD. revert st.
  induction events as [|ev rest IH]; intros st; simpl.
  - rewrite app_nil_r, orb_false_r. split; reflexivity.
  - destruct (IH (dispatch onData callbacks ev st)) as [Ht Hc].
    destruct (dispatch_expected onData callbacks ev st HretData HretE HretD)
      as [Ht1 Hc1].
    rewrite Ht, Hc, Ht1, Hc1, <- app_assoc, orb_assoc. split; reflexivity.
Qed.

Lemma no_terminal_filter (t : list Action) :
  forallb (fun a => negb (is_terminal a)) t = true -> List.filter is_terminal t = [].
Proof.
  induction t as [|a t IH]; simpl; [reflexivity|].
  intros H. apply andb_prop in H as [Ha Ht].
  destruct (is_terminal a); [discriminate Ha | apply IH, Ht].
Qed.

(** The event that closes the connection invokes one terminal callback,
    when both are supplied. *)
Lemma dispatch_closing onData callbacks fe fd ev st :
  onError callbacks = Some fe -> onDone callbacks = Some fd ->
  returns (onError callbacks) -> returns (onDone callbacks) ->
  closed st = false ->
  closed (dispatch onData callbacks ev st) = true ->
  exists acts,
    trace (dispatch onData callbacks ev st) = trace st ++ acts
    /\ length (List.filter is_terminal acts) = 1.
Proof.
  intros HonError HonDone HretE HretD Hopen.
  destruct callbacks as [oe oo od]; simpl in *; subst oe od; simpl in *.
  destruct oo as [fo|]; destruct ev as [|[[text|]]|error]; listener_steps; simpl;
    repeat (case_match; simplify_eq/=);
    rewrite <- ?app_assoc; simpl; intros Hclosed;
    try congruence;
    try (eexists; split; [reflexivity|]; reflexivity).
Qed.

Lemma run_terminal_count onData callbacks fe fd events st :
  onError callbacks = Some fe -> onDone callbacks = Some fd ->
  returns (onError callbacks) -> returns (onDone callbacks) ->
  closed st = false -> List.filter is_terminal (trace st) = [] ->
  quiet_after_close onData callbacks events st = true ->
  length (List.filter is_terminal (trace (run onData callbacks events st)))
    = if closed (run onData callbacks events st) then 1 else 0.
Proof.
  intros HonError HonDone HretE HretD. revert st.
  induction events as [|ev rest IH]; intros st Hopen Hnone Hquiet; simpl.
  - rewrite Hopen, Hnone. reflexivity.
  - simpl in Hquiet. apply andb_prop in Hquiet as [_ Hquiet].
    destruct (closed (dispatch onData callbacks ev st)) eqn:Hclosed.
    + rewrite (quiet_after_close_closed _ _ _ _ Hclosed Hquiet). simpl.
      destruct (dispatch_closing onData callbacks fe fd ev st
                  HonError HonDone HretE HretD Hopen Hclosed) as (acts & Ht & Hone).
      rewrite Hclosed, Ht, List.filter_app, Hnone. exact Hone.
    + destruct (dispatch_actions onData callbacks ev st HretE HretD)
        as (acts & Ht & _ & Hno).
      apply IH; [exact Hclosed | | exact Hquiet].
      rewrite Ht, List.filter_app, Hnone, (no_terminal_filter _ (Hno Hclosed)).
      reflexivity.
Qed.

(** X7. With [onError] and [onDone] supplied and returning normally, and
    a transport that dispatches nothing after [close()], a session whose
    connection ends closed has invoked exactly one terminal callback, and
    one whose connection is still open has invoked none. *)
Theorem closed_sessions_have_one_terminal_callback onData callbacks fe fd events w :
  onError callbacks = Some fe -> onDone callbacks = Some fd ->
  returns (onError callbacks) -> returns (onDone callbacks) ->
  quiet_after_close onData callbacks events (initial w) = true ->
  length (List.filter is_terminal (trace (run onData callbacks events (initial w))))
    = if closed (run onData callbacks events (initial w)) then 1 else 0.
Proof.
  intros HonError HonDone HretE HretD Hquiet.
  apply (run_terminal_count onData callbacks fe fd); auto.
Qed.
End Listening.

(** * Further properties of the requests *)

Section Requests.
Context `{host : Host} {W : Type}.
Implicit Types (onData : Callback W (JSValue Number)) (callbacks : onEvents W)
  (h : gmap loc (list (string * JSValue Number))).

Lemma get_property_None_keys {V} (k : string) (props : list (string * V)) :
  get_property k props = None -> ~ In k (List.map fst props).
Proof.
  induction props as [|[k' v'] props IH]; simpl; [tauto|].
  destruct (decide (k' = k)) as [->|Hne]; [discriminate|].
  intros Hnone [Heq|Hin]; [exact (Hne Heq) | exact (IH Hnone Hin)].
Qed.

Lemma set_property_NoDup {V} (k : string) (v : V) (props : list (string * V)) :
  List.NoDup (List.map fst props) -> List.NoDup (List.map fst (set_property k v props)).
Proof.
  intros Hnodup. rewrite set_property_keys.
  destruct (get_property k props) eqn:Hk; [exact Hnodup|].
  apply NoDup_ListNoDup, NoDup_app. apply NoDup_ListNoDup in Hnodup.
  split; [exact Hnodup|]. split.
  - intros x Hx Hx'. apply list_elem_of_singleton in Hx' as ->.
    apply list_elem_of_In in Hx. exact (get_property_None_keys _ _ Hk Hx).
  - apply NoDup_singleton.
Qed.

Lemma stream_options (this : OpenAI) (endpoint : string) (params : loc)
    onData callbacks h :
  options (fst (_stream this endpoint params onData callbacks h))
    = {| headers := [("Authorization", "Bearer " +:+ apiKey this);
                     ("Content-Type", "application/json")];
         method := "POST";
         body := JSON_stringify
                   (JSObject (set_property "stream" (JSBool true)
                                (own_properties h params))) |}.
Proof.
  unfold _stream. simpl. unfold own_properties at 1.
  rewrite lookup_insert_eq. reflexivity.
Qed.

(** X8. The request body is a new object that lists the caller's keys in
    the caller's order: a [stream] key the caller supplied keeps its
    place, otherwise [stream] goes last, and no key is duplicated; in it
    [stream] reads [true] and every other key reads as in the caller's
    object. *)
Theorem request_body_keys (this : OpenAI) (endpoint : string) (params : loc)
    onData callbacks h :
  exists requestBody,
    snd (_stream this endpoint params onData callbacks h) !! fresh (dom h)
      = Some requestBody
    /\ body (options (fst (_stream this endpoint params onData callbacks h)))
       = JSON_stringify (JSObject requestBody)
    /\ List.map fst requestBody
       = match get_property "stream" (own_properties h params) with
         | Some _ => List.map fst (own_properties h params)
         | None => List.map fst (own_properties h params) ++ ["stream"]
         end
    /\ get_property "stream" requestBody = Some (JSBool true)
    /\ (forall k, k <> "stream" ->
                  get_property k requestBody = get_property k (own_properties h params))
    /\ (List.NoDup (List.map fst (own_properties h params)) ->
        List.NoDup (List.map fst requestBody)).
Proof.
  exists (set_property "stream" (JSBool true) (own_properties h params)).
  unfold _stream. simpl. split; [apply lookup_insert_eq|]. split.
  - unfold own_properties at 1. rewrite lookup_insert_eq. reflexivity.
  - split; [apply set_property_keys|].
    split; [apply get_set_property_eq|].
    split; [intros k Hk; apply get_set_property_ne, Hk | apply set_property_NoDup].
Qed.

Lemma own_properties_after_stream (this : OpenAI) (endpoint : string) (params : loc)
    onData callbacks h (l : loc) :
  is_Some (h !! l) ->
  own_properties (snd (_stream this endpoint params onData callbacks h)) l
    = own_properties h l.
Proof.
  intros [x Hl]. unfold _stream, own_properties. simpl.
  rewrite lookup_insert_ne; [reflexivity|].
  intros <-. rewrite fresh_location in Hl. discriminate Hl.
Qed.

(** X9. Two streams started one after the other are independent: the
    second issues the request it would have issued alone, gets a request
    body of its own, leaves the first one's request body in place, and
    every object of the caller is as before both calls. *)
Theorem successive_streams_are_independent (this : OpenAI) (url1 url2 : string)
    (params1 params2 : loc) onData1 onData2 callbacks1 callbacks2 h :
  is_Some (h !! params2) ->
  let first := _stream this url1 params1 onData1 callbacks1 h in
  let second := _stream this url2 params2 onData2 callbacks2 (snd first) in
  options (fst second)
    = options (fst (_stream this url2 params2 onData2 callbacks2 h))
  /\ fresh (dom (snd first)) <> fresh (dom h)
  /\ snd second !! fresh (dom h) = snd first !! fresh (dom h)
  /\ forall l, is_Some (h !! l) -> snd second !! l = h !! l.
Proof.
  intros Hparams first second.
  assert (Hfirst : snd first !! fresh (dom h)
                   = Some (set_property "stream" (JSBool true) (own_properties h params1))).
  { unfold first, _stream. simpl. apply lookup_insert_eq. }
  assert (Hne : fresh (dom (snd first)) <> fresh (dom h)).
  { intros Heq. pose proof (fresh_location (snd first)) as Hnone.
    rewrite Heq, Hfirst in Hnone. discriminate Hnone. }
  assert (Hkeep : forall l, is_Some (snd first !! l) -> snd second !! l = snd first !! l).
  { intros l [x Hl]. unfold second, _stream. simpl.
    apply lookup_insert_ne. intros <-.
    rewrite fresh_location in Hl. discriminate Hl. }
  split; [|split; [exact Hne|split]].
  - unfold second, first. rewrite !stream_options.
    rewrite (own_properties_after_stream this url1 params1 onData1 callbacks1 h params2
               Hparams).
    reflexivity.
  - apply Hkeep. rewrite Hfirst. eauto.
  - intros l [x Hl].
    assert (Hl1 : snd first !! l = h !! l).
    { unfold first, _stream. simpl. apply lookup_insert_ne. intros <-.
      rewrite fresh_location in Hl. discriminate Hl. }
    rewrite Hkeep; [exact Hl1|]. rewrite Hl1, Hl. eauto.
Qed.

(** X10. Both public stream methods request streaming from their own
    endpoint: [chat.completions.stream] posts to
    [baseURL/chat/completions] and [beta.threads.runs.stream] to
    [baseURL/threads/<threadId>/runs], each with a body in which [stream]
    reads [true] whatever the caller passed, and each leaves the caller's
    objects unchanged. *)
Theorem public_streams_force_streaming (this : OpenAI) (threadId : string) (params : loc)
    onData callbacks h :
  let chat := chat_completions_stream this params onData callbacks h in
  let runs := beta_threads_runs_stream this threadId params onData callbacks h in
  let requestBody := set_property "stream" (JSBool true) (own_properties h params) in
  (url (fst chat) = baseURL this +:+ "/chat/completions"
   /\ url (fst runs) = baseURL this +:+ "/threads/" +:+ threadId +:+ "/runs")
  /\ (method (options (fst chat)) = "POST" /\ method (options (fst runs)) = "POST")
  /\ (body (options (fst chat)) = JSON_stringify (JSObject requestBody)
      /\ body (options (fst runs)) = JSON_stringify (JSObject requestBody))
  /\ get_property "stream" requestBody = Some (JSBool true)
  /\ forall l, is_Some (h !! l) -> snd chat !! l = h !! l /\ snd runs !! l = h !! l.
Proof.
  intros chat runs requestBody.
  assert (Hbody : forall endpoint,
    body (options (fst (_stream this endpoint params onData callbacks h)))
      = JSON_stringify (JSObject requestBody)).
  { intros endpoint. unfold _stream. simpl.
    unfold own_properties at 1. rewrite lookup_insert_eq. reflexivity. }
  assert (Hheap : forall endpoint l, is_Some (h !! l) ->
    snd (_stream this endpoint params onData callbacks h) !! l = h !! l).
  { intros endpoint l [x Hl]. unfold _stream. simpl. apply lookup_insert_ne.
    intros <-. rewrite fresh_location in Hl. discriminate Hl. }
  split; [split; reflexivity|]. split; [split; reflexivity|].
  split; [split; apply Hbody|]. split; [apply get_set_property_eq|].
  intros l Hl. split; apply Hheap, Hl.
Qed.
End Requests.

(** * File upload *)

Section Uploads.
Context `{host : Host}.

(** X11. [files.create] settles by the response body alone: when the
    upload is answered, the promise is fulfilled with the parsed body if
    [JSON.parse] accepts it and rejected with the [SyntaxError] otherwise,
    whatever the HTTP status and headers of the response; when the upload
    itself is rejected, so is the promise, with the same reason. *)
Theorem files_create_settles_by_body
    (uploadAsync : Files.Upload -> Completion Files.FileSystemUploadResult)
    (this : OpenAI) (filePath purpose : string) :
  let upload :=
    {| Files.url := baseURL this +:+ "/files";
       Files.fileUri := filePath;
       Files.options :=
         {| Files.headers := [("Authorization", "Bearer " +:+ apiKey this)];
            Files.httpMethod := "POST";
            Files.fieldName := "file";
            Files.uploadType := Files.MULTIPART;
            Files.parameters := [("purpose", purpose)] |} |} in
  (forall text code hs v,
      uploadAsync upload
        = Normal {| Files.body := text; Files.status := code;
                    Files.response_headers := hs |} ->
      JSON_parse text = inl v ->
      Files.create uploadAsync this filePath purpose = Normal v)
  /\ (forall text code hs message,
      uploadAsync upload
        = Normal {| Files.body := text; Files.status := code;
                    Files.response_headers := hs |} ->
      JSON_parse text = inr message ->
      Files.create uploadAsync this filePath purpose
        = Throw (JSError "SyntaxError" message))
  /\ (forall reason,
      uploadAsync upload = Throw reason ->
      Files.create uploadAsync this filePath purpose = Throw reason).
Proof.
  intros upload. unfold Files.create. fold upload.
  split; [|split].
  - intros text code hs v Hup Hparse. rewrite Hup. simpl. unfold parse.
    rewrite Hparse. reflexivity.
  - intros text code hs message Hup Hparse. rewrite Hup. simpl. unfold parse.
    rewrite Hparse. reflexivity.
  - intros reason Hup. rewrite Hup. reflexivity.
Qed.
End Uploads.

(** * The further properties on the scenarios *)

Section FurtherScenarios.
Import Reference Scenario Cases.

Lemma frames_of_scenario_A :
  Forall2 (fun text v =>
             text <> EmptyString /\ text <> "[DONE]" /\ JSON_parse text = inl v)
          [id_1; id_2]
          [JSObject [("id", JSNumber "1")]; JSObject [("id", JSNumber "2")]].
Proof. repeat constructor; discriminate. Qed.

(** X2 on the two frames of scenario A. *)
Lemma data_frames_keep_the_session_open_witness :
  (forall (v : JSValue string) (n : nat), fst (counting v n) = Normal tt)
  /\ trace (run counting callbacks [frame id_1; frame id_2] (initial 0))
     = [CallOnData (JSObject [("id", JSNumber "1")]);
        CallOnData (JSObject [("id", JSNumber "2")])]
  /\ closed (run counting callbacks [frame id_1; frame id_2] (initial 0)) = false.
Proof.
  split; [intros v n; reflexivity|].
  apply (data_frames_keep_the_session_open counting callbacks [id_1; id_2] _ (initial 0)
           (fun v n => eq_refl) frames_of_scenario_A).
Defined.

(** X3 on a caller without [onError] whose [onData] throws. *)
Lemma onData_exception_swallowed_witness :
  onError without_onError = None
  /\ dispatch (throwing (JSError "Error" "boom")) without_onError (frame id_1) (initial 0)
     = {| world := 0; closed := true;
          trace := [CallOnData (JSObject [("id", JSNumber "1")]); CloseConnection] |}.
Proof.
  split; [reflexivity|].
  apply (onData_exception_swallowed (throwing (JSError "Error" "boom")) without_onError
           id_1 (JSObject [("id", JSNumber "1")]) (JSError "Error" "boom") (initial 0) 0);
    [discriminate | discriminate | reflexivity | reflexivity | reflexivity].
Defined.

(** X4 on an [onData] that throws [null]. *)
Lemma nullish_exception_escapes_witness :
  dispatch (throwing JSNull) callbacks (frame id_1) (initial 0)
    = {| world := 0; closed := false;
         trace := [CallOnData (JSObject [("id", JSNumber "1")]);
                   Uncaught (JSError "TypeError"
                               "Cannot read properties of null (reading 'message')")] |}.
Proof.
  apply (nullish_exception_escapes (throwing JSNull) callbacks counting
           id_1 (JSObject [("id", JSNumber "1")]) JSNull (initial 0) 0);
    [discriminate | discriminate | reflexivity | reflexivity | left; reflexivity
    | reflexivity].
Defined.

(** X5 on a message whose data is [null]. *)
Lemma message_without_data_closes_witness :
  deliverable (EvMessage {| data := None |}) = []
  /\ closed (dispatch counting callbacks (EvMessage {| data := None |}) (initial 0))
     = true.
Proof.
  split; [reflexivity|].
  apply (message_without_data_closes counting callbacks {| data := None |} (initial 0)
           counting_returns counting_returns eq_refl).
Defined.

(** X6 on a transport that keeps dispatching after the teardown. *)
Lemma listeners_keep_no_memory_witness :
  invocations (trace (run counting callbacks after_teardown (initial 0)))
    = [CallOnOpen;
       CallOnData (JSObject [("id", JSNumber "1")]);
       CallOnError (JSError "Error"
                      "JSON Parse on {bad json with error Unexpected token in JSON");
       CallOnError connection_failure;
       CallOnOpen]
  /\ closed (run counting callbacks after_teardown (initial 0)) = true.
Proof.
  apply (listeners_keep_no_memory counting callbacks after_teardown (initial 0)
           (fun v n => eq_refl) counting_returns counting_returns).
Defined.

(** X7 on scenario A. *)
Lemma closed_sessions_have_one_terminal_callback_witness :
  quiet_after_close counting callbacks
    [EvOpen; frame id_1; frame id_2; frame "[DONE]"] (initial 0) = true
  /\ length (List.filter is_terminal
               (trace (run counting callbacks
                         [EvOpen; frame id_1; frame id_2; frame "[DONE]"] (initial 0))))
     = 1.
Proof.
  split; [reflexivity|].
  apply (closed_sessions_have_one_terminal_callback counting callbacks counting counting
           [EvOpen; frame id_1; frame id_2; frame "[DONE]"] 0
           eq_refl eq_refl counting_returns counting_returns eq_refl).
Defined.

(** X9 on a chat stream followed by a run stream. *)
Lemma successive_streams_are_independent_witness :
  is_Some (two_callers !! 2%positive)
  /\ options (fst (beta_threads_runs_stream client "thread_1" 2%positive counting callbacks
                     (snd (chat_completions_stream client params counting callbacks
                             two_callers))))
     = options (fst (beta_threads_runs_stream client "thread_1" 2%positive counting
                       callbacks two_callers)).
Proof.
  assert (H : is_Some (two_callers !! 2%positive)) by (eexists; reflexivity).
  split; [exact H|].
  apply (proj1 (successive_streams_are_independent client
                  (baseURL client +:+ "/chat/completions")
                  (baseURL client +:+ "/threads/" +:+ "thread_1" +:+ "/runs")
                  params 2%positive counting counting callbacks callbacks two_callers H)).
Defined.

(** X11: an error response with a JSON body fulfils the promise, an error
    page rejects it. *)
Lemma files_create_settles_by_body_witness :
  Files.create (answering unauthorized) client "file:///data.jsonl" "fine-tune"
    = Normal (JSObject [("error", JSString "invalid key")])
  /\ Files.create (answering bad_gateway) client "file:///data.jsonl" "fine-tune"
     = Throw (JSError "SyntaxError" "Unexpected token in JSON").
Proof.
  split.
  - apply (proj1 (files_create_settles_by_body (answering unauthorized) client
                    "file:///data.jsonl" "fine-tune")
             (Files.body unauthorized) 401 [] (JSObject [("error", JSString "invalid key")]));
      reflexivity.
  - apply (proj1 (proj2 (files_create_settles_by_body (answering bad_gateway) client
                           "file:///data.jsonl" "fine-tune"))
             "<html>502</html>" 502 [] "Unexpected token in JSON");
      reflexivity.
Defined.
End FurtherScenarios.
